(** * YoutubeDownloader: the download scripts and their acquisition logic

    The repository holds three revisions of one Node.js command-line script
    (two in [index.js], one more beside the READMEs).  Each asks for a video
    URL and an output name, opens ONE ytdl-core stream with the fixed options
    [{ quality: 'highestvideo', filter: 'videoandaudio' }] and pipes it into
    [fs.createWriteStream(`${fileName}.mp4`)].

    This development embeds
    - the acquisition decision of the scripts ([Planner]),
    - the destination path ([outputFilePath]),
    - the three scripts as event-driven state machines ([Basic], [Bar],
      [Percent]) over the events their listeners are registered for.

    Numbers are JavaScript numbers in the source.  The byte counters are
    modelled by exact integers; they agree with the doubles of the source as
    long as they stay below 2^53. *)

From Stdlib Require Import ZArith NArith Lia List Bool Ascii String.
From Stdlib.Strings Require Import Byte.
From Stdlib Require Import DecimalString DecimalN DecimalPos.
From stdpp Require Import base option strings gmap.
Import ListNotations.

(** ** Stream catalog *)

(** Modelled from the spec: the stream descriptors are produced by the
    ytdl-core resolver, which is not part of the repository; the record
    follows section 3 of the specification. *)
Record StreamDescriptor : Type := mkStream {
  hasVideo : bool;
  hasAudio : bool;
  container : string;
  resolutionRank : Z;
  audioBitrateRank : Z;
  sizeBytes : option Z
}.

Definition isCombined (s : StreamDescriptor) : bool := hasVideo s && hasAudio s.
Definition isVideoOnly (s : StreamDescriptor) : bool := hasVideo s && negb (hasAudio s).
Definition isAudioOnly (s : StreamDescriptor) : bool := hasAudio s && negb (hasVideo s).
Definition isMp4 (s : StreamDescriptor) : bool := String.eqb (container s) "mp4".

(** The [filter] and [quality] option values: the two the scripts pass
    ([videoandaudio], [highestvideo]) and those the other two selections of
    section 4.1 need. *)
Inductive Filter : Type := videoandaudio | videoonly | audioonly.
Inductive Quality : Type := highestvideo | highestaudio.

Record Options : Type := mkOptions {
  opt_quality : Quality;
  opt_filter : Filter
}.

(** Modelled from the spec: what a [filter] value of ytdl-core (a library
    outside the repository) admits, after the [hasVideo]/[hasAudio]
    conditions of steps 1 to 3 of section 4.1. *)
Definition matchesFilter (f : Filter) (s : StreamDescriptor) : bool :=
  match f with
  | videoandaudio => isCombined s
  | videoonly => isVideoOnly s
  | audioonly => isAudioOnly s
  end.

(** Modelled from the spec: the rank a [quality] value maximises in
    ytdl-core's selection (steps 1 to 3 of section 4.1). *)
Definition rankOf (q : Quality) (s : StreamDescriptor) : Z :=
  match q with
  | highestvideo => resolutionRank s
  | highestaudio => audioBitrateRank s
  end.

(** Modelled from the spec: the order of ytdl-core's selection, higher rank
    first and, for video, container mp4 on equal rank.  [prefers q cur s]
    holds when the candidate [s] replaces the current choice [cur]. *)
Definition prefers (q : Quality) (cur s : StreamDescriptor) : bool :=
  (rankOf q cur <? rankOf q s)%Z
  || ((rankOf q cur =? rankOf q s)%Z
      && match q with
         | highestvideo => negb (isMp4 cur) && isMp4 s
         | highestaudio => false
         end).

(** Modelled from the spec: ytdl-core's scan of the admitted formats for
    the preferred one, starting from [cur]. *)
Fixpoint pickFrom (q : Quality) (cur : StreamDescriptor)
    (l : list StreamDescriptor) : StreamDescriptor :=
  match l with
  | [] => cur
  | s :: l' => pickFrom q (if prefers q cur s then s else cur) l'
  end.

(** Modelled from the spec: ytdl-core's choice among the admitted formats;
    there is none when no format is admitted. *)
Definition pickBest (q : Quality) (l : list StreamDescriptor)
    : option StreamDescriptor :=
  match l with
  | [] => None
  | s :: l' => Some (pickFrom q s l')
  end.

(** Modelled from the spec: the format selection performed inside ytdl-core
    (not under the repository's sources) for a [filter] and a [quality]:
    keep the streams the filter admits and take one of maximal rank, a video
    tie going to container mp4 (steps 1 to 3 of section 4.1).  Among streams
    that tie completely the earliest of the catalog is kept. *)
Definition chooseFormat (formats : list StreamDescriptor) (o : Options)
    : option StreamDescriptor :=
  pickBest (opt_quality o) (List.filter (matchesFilter (opt_filter o)) formats).

Definition bestCombined (c : list StreamDescriptor) : option StreamDescriptor :=
  chooseFormat c (mkOptions highestvideo videoandaudio).
Definition bestVideoOnly (c : list StreamDescriptor) : option StreamDescriptor :=
  chooseFormat c (mkOptions highestvideo videoonly).
Definition bestAudioOnly (c : list StreamDescriptor) : option StreamDescriptor :=
  chooseFormat c (mkOptions highestaudio audioonly).

(** ** Plans *)

(** Modelled from the spec: the plan and error values of section 3 and
    section 7.  The scripts have no such values; a plan stands for the
    streams they open, the error for ytdl-core finding no format. *)
Inductive AcquisitionPlan : Type :=
  | Combined (stream : StreamDescriptor)
  | Split (videoStream audioStream : StreamDescriptor).

Inductive PlanError : Type := NoStreamAvailable.

Inductive result (A : Type) : Type :=
  | Ok (a : A)
  | Err (e : PlanError).
Arguments Ok {A} a.
Arguments Err {A} e.

Definition planStreams (p : AcquisitionPlan) : list StreamDescriptor :=
  match p with
  | Combined s => [s]
  | Split v a => [v; a]
  end.

Module Planner.

(** The options object literal passed to [ytdl] by every revision of the
    script. *)
Definition ytdlOptions : Options :=
  {| opt_quality := highestvideo; opt_filter := videoandaudio |}.

(** [ytdl(videoUrl, options)]: the single stream the library opens for the
    catalog it resolved from [videoUrl]; when no format passes the selection
    the library delivers no stream. *)
Definition ytdl (catalog : list StreamDescriptor) (o : Options)
    : result StreamDescriptor :=
  match chooseFormat catalog o with
  | Some s => Ok s
  | None => Err NoStreamAvailable
  end.

(** The acquisition decision of the scripts.  The scripts take no capability
    flag and contain no merge step: whatever [mergeToolAvailable] is, they
    open the one stream selected by [ytdlOptions] and write it to the one
    destination file. *)
Definition plan (catalog : list StreamDescriptor) (mergeToolAvailable : bool)
    : result AcquisitionPlan :=
  match ytdl catalog ytdlOptions with
  | Ok s => Ok (Combined s)
  | Err e => Err e
  end.

(** The condition of step 4 of section 4.1, in the specification's words. *)
Definition splitQualifies (catalog : list StreamDescriptor)
    (mergeToolAvailable : bool) : bool :=
  mergeToolAvailable
  && match bestVideoOnly catalog, bestAudioOnly catalog with
     | Some v, Some _ =>
         match bestCombined catalog with
         | None => true
         | Some b => (resolutionRank b <? resolutionRank v)%Z
         end
     | _, _ => false
     end.

(** The planner as section 4.1 of the specification words it (steps 4 to 6);
    kept beside [plan] to compare the two. *)
Definition planSpec (catalog : list StreamDescriptor) (mergeToolAvailable : bool)
    : result AcquisitionPlan :=
  if splitQualifies catalog mergeToolAvailable then
    match bestVideoOnly catalog, bestAudioOnly catalog with
    | Some v, Some a => Ok (Split v a)
    | _, _ => Err NoStreamAvailable
    end
  else
    match bestCombined catalog with
    | Some b => Ok (Combined b)
    | None => Err NoStreamAvailable
    end.

End Planner.

(** ** Destination path *)

(** [const outputFilePath = `${fileName}.mp4`;] *)
Definition outputFilePath (fileName : string) : string :=
  String.append fileName ".mp4".

(** Characters the README lists as forbidden in file names:
    backslash, slash, colon, star, question mark, double quote, angle
    brackets and the vertical bar. *)
Definition illegalChar (c : ascii) : bool :=
  existsb (Nat.eqb (nat_of_ascii c)) [92; 47; 58; 42; 63; 34; 60; 62; 124]%nat.

Definition hasIllegalChar (s : string) : bool :=
  existsb illegalChar (list_ascii_of_string s).

(** ** JavaScript values used by the scripts *)

(** An integer-valued JavaScript number or [NaN]; sign and magnitude are
    kept apart because [parseInt] can return a negative zero. *)
Inductive JsInt : Type :=
  | NaN
  | Int (neg : bool) (mag : N).

Definition isWhiteSpace (c : ascii) : bool :=
  existsb (Nat.eqb (nat_of_ascii c)) [9; 10; 11; 12; 13; 32]%nat.

Fixpoint skipWhiteSpace (s : string) : string :=
  match s with
  | String c s' => if isWhiteSpace c then skipWhiteSpace s' else s
  | EmptyString => s
  end.

Definition digitOf (c : ascii) : option N :=
  let n := N_of_ascii c in
  if ((48 <=? n) && (n <=? 57))%N then Some (n - 48)%N else None.

(** The value of the longest prefix of decimal digits, [None] when the
    prefix is empty. *)
Fixpoint digitsPrefix (s : string) (acc : option N) : option N :=
  match s with
  | String c s' =>
      match digitOf c with
      | Some d => digitsPrefix s' (Some (10 * default 0%N acc + d)%N)
      | None => acc
      end
  | EmptyString => acc
  end.

(** [parseInt(v, 10)] for a header value [v]; an absent header is
    [undefined], which parses to [NaN].  White space is the ASCII part of
    what the language skips. *)
Definition parseInt (v : option string) : JsInt :=
  match v with
  | None => NaN
  | Some s =>
      let s := skipWhiteSpace s in
      let '(neg, s) :=
        match s with
        | String "-"%char s' => (true, s')
        | String "+"%char s' => (false, s')
        | _ => (false, s)
        end in
      match digitsPrefix s None with
      | Some n => Int neg n
      | None => NaN
      end
  end.

(** The number [(downloadedBytes / totalBytes) * 100], kept symbolic: the
    quotient is not rounded to a double here. *)
Inductive Percent : Type :=
  | PNaN
  | PInfinity (neg : bool)
  | PRatio (neg : bool) (num den : N).

Definition percentOf (downloadedBytes : N) (totalBytes : JsInt) : Percent :=
  match totalBytes with
  | NaN => PNaN
  | Int neg 0%N => if (downloadedBytes =? 0)%N then PNaN else PInfinity neg
  | Int neg t => PRatio neg (100 * downloadedBytes) t
  end.

(** A declared size the progress can be measured against. *)
Definition expectedBytes (totalBytes : JsInt) : option N :=
  match totalBytes with
  | Int false (Npos p) => Some (Npos p)
  | _ => None
  end.

(** ** Events and console *)

(** An error object, identified by its message. *)
Definition JsError : Type := string.

(** The events of the two streams the scripts hold: [videoStream] (the
    ytdl-core stream) and [fileStream] (the write stream of the destination
    file). *)
Inductive Event : Type :=
  | Response (headers : gmap string string)   (* videoStream 'response' *)
  | Data (chunk : list Byte.byte)             (* videoStream 'data' *)
  | Progress (chunkLength downloaded total : N) (* videoStream 'progress' *)
  | VideoError (e : JsError)                  (* videoStream 'error' *)
  | Finish                                    (* fileStream 'finish' *)
  | FileError (e : JsError).                  (* fileStream 'error' *)

(** What the scripts print.
    - [LogDone]: [console.log('Téléchargement terminé !')];
    - [LogDownloadError e]:
      [console.error('Une erreur est survenue lors du téléchargement :', e)];
    - [LogWriteError e]:
      [console.error('Une erreur est survenue lors de l'écriture du fichier :', e)];
    - [WriteProgress p]: [readline.cursorTo(process.stdout, 0)] followed by
      [process.stdout.write(`Téléchargement en cours... ${p.toFixed(2)}%`)]. *)
Inductive Line : Type :=
  | LogDone
  | LogDownloadError (e : JsError)
  | LogWriteError (e : JsError)
  | WriteProgress (p : Percent).

(** Life cycle of the write stream: ['finish'] and ['error'] are emitted at
    most once and nothing is emitted after either. *)
Inductive Writable : Type := Open | Finished | Errored.

Inductive TaskState : Type := Pending | InProgress | Completed | Failed.

Definition chunkLength (chunk : list Byte.byte) : N := N.of_nat (length chunk).

Definition isErrorEvent (ev : Event) : bool :=
  match ev with
  | VideoError _ | FileError _ => true
  | _ => false
  end.

(** No 'error' event of either stream among some events. *)
Definition noError (tr : list Event) : bool :=
  forallb (fun ev => negb (isErrorEvent ev)) tr.

(** ** First revision of [index.js]: pipe, then report *)

Module Basic.

Record state : Type := mkState {
  written : N;                (* bytes piped into the destination file *)
  console : list Line;
  fileStream : Writable;
  rlClosed : bool;
  uncaught : option JsError   (* an 'error' event nobody listens to *)
}.

(** The state once the callback of the second question has returned: the
    pipe is set up, [rl.close()] has run. *)
Definition init : state :=
  {| written := 0; console := []; fileStream := Open; rlClosed := true;
     uncaught := None |}.

(** [.on('finish', () => { console.log('Téléchargement terminé !'); })] *)
Definition onFinish (st : state) : state :=
  {| written := written st; console := console st ++ [LogDone];
     fileStream := Finished; rlClosed := rlClosed st; uncaught := uncaught st |}.

(** [.on('error', (error) => { console.error('...', error); })], registered
    on the value of [pipe], which is the write stream. *)
Definition onError (e : JsError) (st : state) : state :=
  {| written := written st; console := console st ++ [LogDownloadError e];
     fileStream := Errored; rlClosed := rlClosed st; uncaught := uncaught st |}.

(** [ytdl(...).pipe(fs.createWriteStream(outputFilePath))]: a chunk goes to
    the file while the write stream is open. *)
Definition pipeChunk (chunk : list Byte.byte) (st : state) : state :=
  match fileStream st with
  | Open =>
      {| written := written st + chunkLength chunk; console := console st;
         fileStream := Open; rlClosed := rlClosed st; uncaught := uncaught st |}
  | _ => st
  end.

Definition throwUncaught (e : JsError) (st : state) : state :=
  {| written := written st; console := console st;
     fileStream := fileStream st; rlClosed := rlClosed st; uncaught := Some e |}.

(** Dispatch of one event to the listeners of the script.  An 'error' event
    on [videoStream] finds no listener and ends the process. *)
Definition step (st : state) (ev : Event) : state :=
  match uncaught st with
  | Some _ => st
  | None =>
      match ev with
      | Response _ => st
      | Progress _ _ _ => st
      | Data chunk => pipeChunk chunk st
      | VideoError e => throwUncaught e st
      | Finish =>
          match fileStream st with Open => onFinish st | _ => st end
      | FileError e =>
          match fileStream st with Open => onError e st | _ => st end
      end
  end.

Definition run (tr : list Event) : state := fold_left step tr init.

Definition taskState (st : state) : TaskState :=
  match fileStream st with
  | Finished => Completed
  | Errored => Failed
  | Open => match uncaught st with Some _ => Failed | None => InProgress end
  end.

End Basic.

(** ** Third revision: byte counter and percentage *)

Module Percent.

Record state : Type := mkState {
  downloadedBytes : N;
  totalBytes : JsInt;
  written : N;
  console : list Line;
  fileStream : Writable;
  rlClosed : bool;
  uncaught : option JsError
}.

(** [let downloadedBytes = 0; let totalBytes = 0;] with the pipe set up. *)
Definition init : state :=
  {| downloadedBytes := 0; totalBytes := Int false 0; written := 0;
     console := []; fileStream := Open; rlClosed := false; uncaught := None |}.

(** [totalBytes = parseInt(response.headers['content-length'], 10);] *)
Definition onResponse (headers : gmap string string) (st : state) : state :=
  {| downloadedBytes := downloadedBytes st;
     totalBytes := parseInt (headers !! "content-length");
     written := written st; console := console st;
     fileStream := fileStream st; rlClosed := rlClosed st;
     uncaught := uncaught st |}.

(** The 'data' listener: [downloadedBytes += chunk.length], then the
    percentage is computed and written.  The pipe, a second consumer of the
    same event, writes the chunk while the file stream is open. *)
Definition onData (chunk : list Byte.byte) (st : state) : state :=
  let downloaded := (downloadedBytes st + chunkLength chunk)%N in
  let progress := percentOf downloaded (totalBytes st) in
  {| downloadedBytes := downloaded;
     totalBytes := totalBytes st;
     written := match fileStream st with
                | Open => written st + chunkLength chunk
                | _ => written st
                end;
     console := console st ++ [WriteProgress progress];
     fileStream := fileStream st; rlClosed := rlClosed st;
     uncaught := uncaught st |}.

(** [fileStream.on('finish', ...)]: success message, then [rl.close()]. *)
Definition onFinish (st : state) : state :=
  {| downloadedBytes := downloadedBytes st; totalBytes := totalBytes st;
     written := written st; console := console st ++ [LogDone];
     fileStream := Finished; rlClosed := true; uncaught := uncaught st |}.

(** [fileStream.on('error', ...)]: error message, then [rl.close()]. *)
Definition onError (e : JsError) (st : state) : state :=
  {| downloadedBytes := downloadedBytes st; totalBytes := totalBytes st;
     written := written st; console := console st ++ [LogWriteError e];
     fileStream := Errored; rlClosed := true; uncaught := uncaught st |}.

Definition throwUncaught (e : JsError) (st : state) : state :=
  {| downloadedBytes := downloadedBytes st; totalBytes := totalBytes st;
     written := written st; console := console st;
     fileStream := fileStream st; rlClosed := rlClosed st;
     uncaught := Some e |}.

Definition step (st : state) (ev : Event) : state :=
  match uncaught st with
  | Some _ => st
  | None =>
      match ev with
      | Response headers => onResponse headers st
      | Data chunk => onData chunk st
      | Progress _ _ _ => st
      | VideoError e => throwUncaught e st
      | Finish =>
          match fileStream st with Open => onFinish st | _ => st end
      | FileError e =>
          match fileStream st with Open => onError e st | _ => st end
      end
  end.

Definition run (tr : list Event) : state := fold_left step tr init.

Definition taskState (st : state) : TaskState :=
  match fileStream st with
  | Finished => Completed
  | Errored => Failed
  | Open =>
      match uncaught st with
      | Some _ => Failed
      | None => if (downloadedBytes st =? 0)%N then Pending else InProgress
      end
  end.

(** The events that reach a listener: those before the first 'error' of
    [videoStream], which ends the process. *)
Fixpoint delivered (tr : list Event) : list Event :=
  match tr with
  | [] => []
  | VideoError _ :: _ => []
  | ev :: tr' => ev :: delivered tr'
  end.

(** Sum of the sizes of the chunks among some events. *)
Fixpoint chunkBytes (tr : list Event) : N :=
  match tr with
  | [] => 0
  | Data chunk :: tr' => chunkLength chunk + chunkBytes tr'
  | _ :: tr' => chunkBytes tr'
  end.

End Percent.

(** ** Second revision of [index.js]: progress bar *)

Module Bar.

(** The file system as far as the script looks at it: the size in bytes of
    each existing file. *)
Inductive FsError : Type := ENOENT (path : string).

(** [fs.statSync(path).size]; a missing file makes [statSync] throw. *)
Definition statSyncSize (files : gmap string N) (path : string)
    : FsError + N :=
  match files !! path with
  | Some size => inr size
  | None => inl (ENOENT path)
  end.

(** [fs.createWriteStream(path)]: the file is created, or emptied when it
    exists. *)
Definition createWriteStream (files : gmap string N) (path : string)
    : gmap string N :=
  <[path := 0%N]> files.

Record ProgressBar : Type := mkBar {
  total : N;
  curr : N
}.

(** [progressBar.tick(len)] *)
Definition tick (len : N) (b : ProgressBar) : ProgressBar :=
  {| total := total b; curr := (curr b + len)%N |}.

Record state : Type := mkState {
  progressBar : ProgressBar;
  files : gmap string N;
  path : string;
  console : list Line;
  fileStream : Writable;
  rlClosed : bool;
  uncaught : option JsError
}.

(** Result of the synchronous part of the script (the body of the callback
    of the second question). *)
Inductive Startup : Type :=
  | Threw (e : FsError) (files : gmap string N)
  | Started (st : state).

(** The callback body, statement by statement: the path, the (lazy) ytdl
    stream, the size of the destination file, the bar with that size as
    total, the listeners, the pipe into a fresh write stream, [rl.close()].
    An exception of [statSync] leaves the callback before the write stream
    is created. *)
Definition start (files0 : gmap string N) (fileName : string) : Startup :=
  let outputFilePath := outputFilePath fileName in
  match statSyncSize files0 outputFilePath with
  | inl e => Threw e files0
  | inr fileSize =>
      Started
        {| progressBar := {| total := fileSize; curr := 0 |};
           files := createWriteStream files0 outputFilePath;
           path := outputFilePath;
           console := [];
           fileStream := Open;
           rlClosed := true;
           uncaught := None |}
  end.

(** [videoStream.on('progress', (chunkLength, downloaded, total) =>
    { progressBar.tick(chunkLength); })] *)
Definition onProgress (chunkLength downloaded total : N) (st : state) : state :=
  {| progressBar := tick chunkLength (progressBar st);
     files := files st; path := path st; console := console st;
     fileStream := fileStream st; rlClosed := rlClosed st;
     uncaught := uncaught st |}.

Definition pipeChunk (chunk : list Byte.byte) (st : state) : state :=
  match fileStream st with
  | Open =>
      {| progressBar := progressBar st;
         files := alter (fun size => (size + chunkLength chunk)%N) (path st) (files st);
         path := path st; console := console st;
         fileStream := Open; rlClosed := rlClosed st;
         uncaught := uncaught st |}
  | _ => st
  end.

Definition onFinish (st : state) : state :=
  {| progressBar := progressBar st; files := files st; path := path st;
     console := console st ++ [LogDone];
     fileStream := Finished; rlClosed := rlClosed st;
     uncaught := uncaught st |}.

Definition onError (e : JsError) (st : state) : state :=
  {| progressBar := progressBar st; files := files st; path := path st;
     console := console st ++ [LogDownloadError e];
     fileStream := Errored; rlClosed := rlClosed st;
     uncaught := uncaught st |}.

Definition throwUncaught (e : JsError) (st : state) : state :=
  {| progressBar := progressBar st; files := files st; path := path st;
     console := console st; fileStream := fileStream st;
     rlClosed := rlClosed st; uncaught := Some e |}.

Definition step (st : state) (ev : Event) : state :=
  match uncaught st with
  | Some _ => st
  | None =>
      match ev with
      | Response _ => st
      | Progress chunkLength downloaded total =>
          onProgress chunkLength downloaded total st
      | Data chunk => pipeChunk chunk st
      | VideoError e => throwUncaught e st
      | Finish =>
          match fileStream st with Open => onFinish st | _ => st end
      | FileError e =>
          match fileStream st with Open => onError e st | _ => st end
      end
  end.

Definition runFrom (st : state) (tr : list Event) : state := fold_left step tr st.

End Bar.

(** ** Catalogs of the scenarios of section 8 *)

Definition combinedStream (res : Z) : StreamDescriptor :=
  mkStream true true "mp4" res 0 None.
Definition videoOnlyStream (res : Z) : StreamDescriptor :=
  mkStream true false "mp4" res 0 None.
Definition audioOnlyStream : StreamDescriptor :=
  mkStream false true "mp4" 0 128 None.

Definition scenarioA : list StreamDescriptor := [combinedStream 480].
Definition scenarioB : list StreamDescriptor :=
  [combinedStream 720; videoOnlyStream 2160; audioOnlyStream].
Definition scenarioC : list StreamDescriptor :=
  [combinedStream 720; videoOnlyStream 720; audioOnlyStream].
Definition scenarioD : list StreamDescriptor := [].

(** ** Observations on events and console lines *)

Definition isResponse (ev : Event) : bool :=
  match ev with Response _ => true | _ => false end.

Definition isData (ev : Event) : bool :=
  match ev with Data _ => true | _ => false end.

Definition isProgressLine (l : Line) : bool :=
  match l with WriteProgress _ => true | _ => false end.

(** The lines that close a run: the success message and the two error
    messages. *)
Definition isTerminalLine (l : Line) : bool :=
  match l with WriteProgress _ => false | _ => true end.

(** Running totals: [prefixSums acc [a; b; c]] is
    [[acc + a; acc + a + b; acc + a + b + c]]. *)
Fixpoint prefixSums (acc : N) (sizes : list N) : list N :=
  match sizes with
  | [] => []
  | n :: sizes' => (acc + n)%N :: prefixSums (acc + n) sizes'
  end.

(** Sum of the sizes of the chunks that reach the destination file: those
    that arrive before the write stream finishes or fails and before an
    'error' of the ytdl stream. *)
Fixpoint pipedBytes (tr : list Event) : N :=
  match tr with
  | [] => 0
  | Data chunk :: tr' => chunkLength chunk + pipedBytes tr'
  | Response _ :: tr' => pipedBytes tr'
  | Progress _ _ _ :: tr' => pipedBytes tr'
  | VideoError _ :: _ => 0
  | Finish :: _ => 0
  | FileError _ :: _ => 0
  end.

(** Sum of the chunk lengths announced by the 'progress' events that reach
    a listener. *)
Fixpoint tickedBytes (tr : list Event) : N :=
  match tr with
  | [] => 0
  | Progress len _ _ :: tr' => len + tickedBytes tr'
  | VideoError _ :: _ => 0
  | _ :: tr' => tickedBytes tr'
  end.

(** The first revision's view of a line of the third: progress lines do not
    exist there and the error message is the download one. *)
Definition asBasicLine (l : Line) : list Line :=
  match l with
  | WriteProgress _ => []
  | LogWriteError e => [LogDownloadError e]
  | LogDownloadError e => [LogDownloadError e]
  | LogDone => [LogDone]
  end.


(** What the third revision keeps true of its state, whatever events
    arrive: readline is closed exactly when the write stream has finished or
    failed; the file never holds more than was counted; at most one closing
    line is printed, and it matches the state of the write stream. *)
Definition percentInvariant (st : Percent.state) : Prop :=
  Percent.rlClosed st
    = match Percent.fileStream st with Open => false | _ => true end
  /\ (Percent.written st <= Percent.downloadedBytes st)%N
  /\ (Percent.fileStream st = Open ->
      Percent.written st = Percent.downloadedBytes st)
  /\ length (List.filter isTerminalLine (Percent.console st))
     = match Percent.fileStream st with Open => 0 | _ => 1 end
  /\ (Percent.fileStream st = Finished <-> In LogDone (Percent.console st))
  /\ (Percent.fileStream st = Errored <->
      exists e, In (LogWriteError e) (Percent.console st))
  /\ (forall e, ~ In (LogDownloadError e) (Percent.console st)).

(** * Properties *)

(** ** Selection of the best stream *)

Section Selection.

Variable q : Quality.

Lemma pickFrom_in cur l :
  pickFrom q cur l = cur \/ In (pickFrom q cur l) l.
Proof.
  revert cur; induction l as [|s l IH]; intros cur; simpl; [now left|].
  destruct (IH (if prefers q cur s then s else cur)) as [E|E].
  - rewrite E. destruct (prefers q cur s); [right; now left | now left].
  - right; now right.
Qed.

Lemma prefers_ge cur s :
  (rankOf q cur <= rankOf q (if prefers q cur s then s else cur))%Z.
Proof.
  destruct (prefers q cur s) eqn:P; [|lia].
  unfold prefers in P. apply orb_true_iff in P as [P|P].
  - apply Z.ltb_lt in P. lia.
  - apply andb_true_iff in P as [P _]. apply Z.eqb_eq in P. lia.
Qed.

Lemma pickFrom_ge cur l :
  (rankOf q cur <= rankOf q (pickFrom q cur l))%Z.
Proof.
  revert cur; induction l as [|s l IH]; intros cur; simpl; [lia|].
  pose proof (prefers_ge cur s).
  specialize (IH (if prefers q cur s then s else cur)). lia.
Qed.

Lemma pickFrom_max cur l t :
  t = cur \/ In t l -> (rankOf q t <= rankOf q (pickFrom q cur l))%Z.
Proof.
  revert cur t; induction l as [|s l IH]; intros cur t H; simpl.
  - destruct H as [->|[]]. lia.
  - pose proof (pickFrom_ge (if prefers q cur s then s else cur) l) as G.
    destruct H as [->|[<-|H]].
    + pose proof (prefers_ge cur s). lia.
    + destruct (prefers q cur s) eqn:P; [exact G|].
      unfold prefers in P. apply orb_false_iff in P as [P _].
      apply Z.ltb_ge in P. lia.
    + apply IH. now right.
Qed.

End Selection.

Lemma pickFrom_keeps_mp4 cur l :
  isMp4 cur = true ->
  rankOf highestvideo (pickFrom highestvideo cur l) = rankOf highestvideo cur ->
  isMp4 (pickFrom highestvideo cur l) = true.
Proof.
  revert cur; induction l as [|s l IH]; intros cur M E; simpl in *; [exact M|].
  pose proof (pickFrom_ge highestvideo (if prefers highestvideo cur s then s else cur) l) as G.
  destruct (prefers highestvideo cur s) eqn:P.
  - unfold prefers in P. rewrite M in P. simpl in P.
    rewrite andb_false_r, orb_false_r in P. apply Z.ltb_lt in P.
    simpl in *. lia.
  - now apply IH.
Qed.

Lemma pickFrom_prefers_mp4 cur l t :
  t = cur \/ In t l ->
  rankOf highestvideo t = rankOf highestvideo (pickFrom highestvideo cur l) ->
  isMp4 t = true ->
  isMp4 (pickFrom highestvideo cur l) = true.
Proof.
  revert cur t; induction l as [|s l IH]; intros cur t H R M.
  - destruct H as [->|[]]. exact M.
  - simpl in *.
    pose proof (pickFrom_ge highestvideo
                  (if prefers highestvideo cur s then s else cur) l) as G.
    destruct H as [->|[<-|H]].
    + exact (pickFrom_keeps_mp4 cur (s :: l) M (eq_sym R)).
    + destruct (prefers highestvideo cur s) eqn:P.
      * apply pickFrom_keeps_mp4; [exact M | now symmetry].
      * unfold prefers in P. apply orb_false_iff in P as [P1 P2].
        apply Z.ltb_ge in P1. simpl in *.
        assert (Eq : resolutionRank cur = resolutionRank s) by lia.
        rewrite Eq, Z.eqb_refl, M in P2. simpl in P2.
        rewrite andb_true_r in P2. apply negb_false_iff in P2.
        apply pickFrom_keeps_mp4; [exact P2 | simpl; lia].
    + apply (IH _ t); auto.
Qed.

Lemma chooseFormat_Some c o s :
  chooseFormat c o = Some s ->
  In s c /\ matchesFilter (opt_filter o) s = true
  /\ (forall t, In t c -> matchesFilter (opt_filter o) t = true ->
        (rankOf (opt_quality o) t <= rankOf (opt_quality o) s)%Z)
  /\ (opt_quality o = highestvideo ->
      forall t, In t c -> matchesFilter (opt_filter o) t = true ->
        resolutionRank t = resolutionRank s -> isMp4 t = true ->
        isMp4 s = true).
Proof.
  unfold chooseFormat, pickBest.
  destruct (List.filter _ c) as [|h l] eqn:F; [discriminate|].
  intros [= <-].
  assert (Mem : forall t, In t c /\ matchesFilter (opt_filter o) t = true
                          <-> t = h \/ In t l).
  { intros t. rewrite <- filter_In, F. simpl. intuition. }
  assert (In (pickFrom (opt_quality o) h l) (h :: l)) as I.
  { destruct (pickFrom_in (opt_quality o) h l) as [E|E];
      [rewrite E; now left | now right]. }
  rewrite <- F in I. apply filter_In in I as [I1 I2].
  repeat split; try assumption.
  - intros t T1 T2. apply pickFrom_max. apply Mem. now split.
  - intros Q t T1 T2 R M. rewrite Q in *.
    apply (pickFrom_prefers_mp4 h l t); auto. apply Mem. now split.
Qed.

Lemma chooseFormat_None c o :
  chooseFormat c o = None <->
  forall t, In t c -> matchesFilter (opt_filter o) t = false.
Proof.
  unfold chooseFormat, pickBest. split.
  - destruct (List.filter _ c) as [|h l] eqn:F; [|discriminate].
    intros _ t T. destruct (matchesFilter (opt_filter o) t) eqn:M; [|reflexivity].
    assert (In t (List.filter (matchesFilter (opt_filter o)) c)) as I
      by (apply filter_In; now split).
    rewrite F in I. destruct I.
  - intros H. destruct (List.filter _ c) as [|h l] eqn:F; [reflexivity|].
    assert (In h (List.filter (matchesFilter (opt_filter o)) c)) as I
      by (rewrite F; now left).
    apply filter_In in I as [I1 I2]. rewrite (H h I1) in I2. discriminate.
Qed.

(** ** The acquisition decision *)

(** The scenarios of section 8 on the scripts and on the planner of the
    specification.  They agree on A, C and D and differ on B. *)
Example scenarioA_plan :
  Planner.plan scenarioA false = Ok (Combined (combinedStream 480))
  /\ Planner.planSpec scenarioA false = Ok (Combined (combinedStream 480)).
Proof. split; reflexivity. Qed.

Example scenarioB_plan :
  Planner.plan scenarioB true = Ok (Combined (combinedStream 720))
  /\ Planner.planSpec scenarioB true
     = Ok (Split (videoOnlyStream 2160) audioOnlyStream).
Proof. split; reflexivity. Qed.

Example scenarioC_plan :
  Planner.plan scenarioC true = Ok (Combined (combinedStream 720))
  /\ Planner.planSpec scenarioC true = Ok (Combined (combinedStream 720)).
Proof. split; reflexivity. Qed.

Example scenarioD_plan :
  Planner.plan scenarioD true = Err NoStreamAvailable
  /\ Planner.planSpec scenarioD true = Err NoStreamAvailable.
Proof. split; reflexivity. Qed.

Lemma plan_unfold c m :
  Planner.plan c m =
  match bestCombined c with
  | Some b => Ok (Combined b)
  | None => Err NoStreamAvailable
  end.
Proof.
  unfold Planner.plan, Planner.ytdl, bestCombined, Planner.ytdlOptions.
  now destruct (chooseFormat c _).
Qed.

Lemma plan_never_split c m v a : Planner.plan c m <> Ok (Split v a).
Proof. rewrite plan_unfold. destruct (bestCombined c); discriminate. Qed.

Lemma plan_ignores_flag c m m' : Planner.plan c m = Planner.plan c m'.
Proof. reflexivity. Qed.

(** The scripts agree with the planner of section 4.1 exactly where that
    planner does not split. *)
Lemma plan_refines_spec c m :
  Planner.splitQualifies c m = false -> Planner.plan c m = Planner.planSpec c m.
Proof.
  intros H. rewrite plan_unfold. unfold Planner.planSpec. now rewrite H.
Qed.

(** C1, as the claim states it, fails on scenario B of section 8: with a
    merge tool, a 2160 video-only stream, an audio-only stream and a 720
    combined stream, the scripts still fetch the combined stream. *)
Lemma split_claim_counterexample :
  ~ (forall (c : list StreamDescriptor) (mergeToolAvailable : bool)
            (v a : StreamDescriptor),
       mergeToolAvailable = true ->
       bestVideoOnly c = Some v ->
       bestAudioOnly c = Some a ->
       (bestCombined c = None
        \/ exists b, bestCombined c = Some b
                     /\ (resolutionRank b < resolutionRank v)%Z) ->
       Planner.plan c mergeToolAvailable = Ok (Split v a)).
Proof.
  intros H.
  specialize (H scenarioB true (videoOnlyStream 2160) audioOnlyStream
                eq_refl eq_refl eq_refl).
  assert (Planner.plan scenarioB true = Ok (Combined (combinedStream 720))) as E
    by reflexivity.
  rewrite E in H. enough (Ok (Combined (combinedStream 720))
                          = Ok (Split (videoOnlyStream 2160) audioOnlyStream))
    by discriminate.
  apply H. right. exists (combinedStream 720). split; [reflexivity|].
  simpl. lia.
Qed.

(** C1 (amended): where the planner of the specification would split (merge
    tool available, a best video-only and a best audio-only stream, and no
    combined stream or one of strictly lower resolution rank), the scripts
    do not: they never produce [Split]; they fetch the best combined stream
    when there is one and fail with [NoStreamAvailable] when there is none. *)
Theorem plan_combined_where_spec_splits
    (c : list StreamDescriptor) (mergeToolAvailable : bool)
    (v a : StreamDescriptor) :
  mergeToolAvailable = true ->
  bestVideoOnly c = Some v ->
  bestAudioOnly c = Some a ->
  (bestCombined c = None
   \/ exists b, bestCombined c = Some b
                /\ (resolutionRank b < resolutionRank v)%Z) ->
  Planner.planSpec c mergeToolAvailable = Ok (Split v a)
  /\ Planner.plan c mergeToolAvailable <> Ok (Split v a)
  /\ Planner.plan c mergeToolAvailable =
       match bestCombined c with
       | Some b => Ok (Combined b)
       | None => Err NoStreamAvailable
       end.
Proof.
  intros -> V A B. split; [|split].
  - unfold Planner.planSpec, Planner.splitQualifies. rewrite V, A. simpl.
    destruct B as [-> | (b & -> & L)]; [reflexivity|].
    apply Z.ltb_lt in L. now rewrite L.
  - apply plan_never_split.
  - apply plan_unfold.
Qed.

Lemma plan_combined_where_spec_splits_witness :
  Planner.planSpec scenarioB true
    = Ok (Split (videoOnlyStream 2160) audioOnlyStream)
  /\ Planner.plan scenarioB true
       <> Ok (Split (videoOnlyStream 2160) audioOnlyStream)
  /\ Planner.plan scenarioB true = Ok (Combined (combinedStream 720)).
Proof.
  apply (plan_combined_where_spec_splits scenarioB true
           (videoOnlyStream 2160) audioOnlyStream);
    [reflexivity | reflexivity | reflexivity |].
  right. exists (combinedStream 720). split; [reflexivity | simpl; lia].
Defined.

(** C2: on a non-empty catalog with at least one combined stream and no
    pair that qualifies for a split, the scripts fetch a combined stream of
    the catalog whose resolution rank is maximal among the combined streams,
    and which is an mp4 whenever some combined stream of that rank is. *)
Theorem plan_combined_maximal
    (c : list StreamDescriptor) (mergeToolAvailable : bool) :
  c <> [] ->
  (exists s, In s c /\ isCombined s = true) ->
  Planner.splitQualifies c mergeToolAvailable = false ->
  exists s,
    Planner.plan c mergeToolAvailable = Ok (Combined s)
    /\ In s c /\ isCombined s = true
    /\ (forall t, In t c -> isCombined t = true ->
          (resolutionRank t <= resolutionRank s)%Z)
    /\ (forall t, In t c -> isCombined t = true ->
          resolutionRank t = resolutionRank s -> isMp4 t = true ->
          isMp4 s = true).
Proof.
  intros _ (s0 & I0 & C0) _. rewrite plan_unfold.
  destruct (bestCombined c) as [s|] eqn:B.
  - exists s. unfold bestCombined in B.
    apply chooseFormat_Some in B as (I & M & Max & Mp4). simpl in *.
    repeat split; auto. exact (Mp4 eq_refl).
  - unfold bestCombined in B.
    rewrite chooseFormat_None in B. specialize (B s0 I0). simpl in B.
    congruence.
Qed.

Lemma plan_combined_maximal_witness :
  exists s,
    Planner.plan scenarioC true = Ok (Combined s)
    /\ In s scenarioC /\ isCombined s = true
    /\ (forall t, In t scenarioC -> isCombined t = true ->
          (resolutionRank t <= resolutionRank s)%Z)
    /\ (forall t, In t scenarioC -> isCombined t = true ->
          resolutionRank t = resolutionRank s -> isMp4 t = true ->
          isMp4 s = true).
Proof.
  apply (plan_combined_maximal scenarioC true).
  - discriminate.
  - exists (combinedStream 720). split; [now left | reflexivity].
  - reflexivity.
Defined.



(** C4: the decision is a function of the catalog and the flag alone (equal
    inputs give equal plans), and every stream of a plan it produces comes
    from the input catalog. *)
Theorem plan_pure_within_catalog
    (c1 c2 : list StreamDescriptor) (m1 m2 : bool) :
  c1 = c2 -> m1 = m2 ->
  Planner.plan c1 m1 = Planner.plan c2 m2
  /\ forall p s, Planner.plan c1 m1 = Ok p -> In s (planStreams p) -> In s c1.
Proof.
  intros -> ->. split; [reflexivity|].
  intros p s P I. rewrite plan_unfold in P.
  destruct (bestCombined c2) as [b|] eqn:B; [|discriminate].
  injection P as <-. destruct I as [<-|[]].
  now apply chooseFormat_Some in B as (I & _).
Qed.

Lemma plan_pure_within_catalog_witness :
  Planner.plan scenarioB true = Planner.plan scenarioB true
  /\ forall p s, Planner.plan scenarioB true = Ok p ->
                 In s (planStreams p) -> In s scenarioB.
Proof.
  apply (plan_pure_within_catalog scenarioB scenarioB true true);
    reflexivity.
Defined.

(** ** The byte counter of the third revision *)

Module PercentFacts.
Import Percent.

Lemma run_snoc tr ev : run (tr ++ [ev]) = step (run tr) ev.
Proof. unfold run. now rewrite fold_left_app. Qed.

Lemma run_app tr tr' : run (tr ++ tr') = fold_left step tr' (run tr).
Proof. unfold run. now rewrite fold_left_app. Qed.

Lemma step_dead st ev e : uncaught st = Some e -> step st ev = st.
Proof. intros H. unfold step. now rewrite H. Qed.

Lemma fold_dead tr st e : uncaught st = Some e -> fold_left step tr st = st.
Proof.
  revert st; induction tr as [|ev tr IH]; intros st H; simpl; [reflexivity|].
  rewrite (step_dead st ev e H). now apply IH.
Qed.

Lemma step_alive st ev :
  uncaught st = None ->
  match ev with
  | VideoError e => uncaught (step st ev) = Some e
  | _ => uncaught (step st ev) = None
  end.
Proof.
  intros H. unfold step. rewrite H.
  destruct ev; simpl; try assumption; try reflexivity;
    destruct (fileStream st); simpl; assumption.
Qed.

Lemma step_downloaded st ev :
  downloadedBytes (step st ev) =
  match uncaught st, ev with
  | None, Data chunk => (downloadedBytes st + chunkLength chunk)%N
  | _, _ => downloadedBytes st
  end.
Proof.
  unfold step. destruct (uncaught st); [now destruct ev|].
  destruct ev; simpl; try reflexivity; now destruct (fileStream st).
Qed.

Lemma step_downloaded_mono st ev :
  (downloadedBytes st <= downloadedBytes (step st ev))%N.
Proof.
  rewrite step_downloaded. destruct (uncaught st), ev; lia.
Qed.

Lemma fold_downloaded_mono tr st :
  (downloadedBytes st <= downloadedBytes (fold_left step tr st))%N.
Proof.
  revert st; induction tr as [|ev tr IH]; intros st; simpl; [lia|].
  pose proof (step_downloaded_mono st ev). specialize (IH (step st ev)). lia.
Qed.

Lemma fold_downloaded tr st :
  uncaught st = None ->
  downloadedBytes (fold_left step tr st)
  = (downloadedBytes st + chunkBytes (delivered tr))%N.
Proof.
  revert st; induction tr as [|ev tr IH]; intros st H; simpl; [lia|].
  pose proof (step_alive st ev H) as A.
  pose proof (step_downloaded st ev) as D. rewrite H in D.
  destruct ev; simpl;
    try (rewrite (IH _ A), D; lia).
  rewrite (fold_dead _ _ _ A), D. lia.
Qed.

(** C5, as the claim states it, fails in its last part.  The stream below
    reconnects after three of five bytes: the second response declares the
    two bytes that are left, the write stream finishes, and the counter (5)
    differs from the known total (2). *)
Lemma final_count_counterexample :
  ~ (forall (tr : list Event) (n : N),
       fileStream (run tr) = Finished ->
       expectedBytes (totalBytes (run tr)) = Some n ->
       downloadedBytes (run tr) = n).
Proof.
  intros H.
  specialize (H [Response {["content-length" := "5"]};
                 Data ["a"; "b"; "c"]%byte;
                 Response {["content-length" := "2"]};
                 Data ["d"; "e"]%byte;
                 Finish] 2%N).
  vm_compute in H. specialize (H eq_refl eq_refl). discriminate H.
Qed.

(** C5 (amended): the counter equals, after any events, the sum of the
    sizes of the chunks received so far and never decreases as further
    events arrive; when the write stream has finished it is the sum of the
    sizes of all chunks received, and it equals a known expected size
    exactly when those sizes add up to it. *)
Theorem downloadedBytes_is_chunk_sum (tr tr' : list Event) :
  downloadedBytes (run tr) = chunkBytes (delivered tr)
  /\ (downloadedBytes (run tr) <= downloadedBytes (run (tr ++ tr')))%N
  /\ (fileStream (run tr) = Finished ->
      forall n, expectedBytes (totalBytes (run tr)) = Some n ->
        (downloadedBytes (run tr) = n <-> chunkBytes (delivered tr) = n)).
Proof.
  assert (downloadedBytes (run tr) = chunkBytes (delivered tr)) as E.
  { unfold run. rewrite fold_downloaded by reflexivity. simpl. lia. }
  split; [exact E | split].
  - rewrite run_app. apply fold_downloaded_mono.
  - intros _ n _. now rewrite E.
Qed.

Lemma downloadedBytes_is_chunk_sum_witness :
  let tr := [Response {["content-length" := "5"]};
             Data ["a"; "b"; "c"]%byte; Data ["d"; "e"]%byte; Finish] in
  downloadedBytes (run tr) = 5%N
  /\ (downloadedBytes (run tr) <= downloadedBytes (run (tr ++ [Data ["f"]%byte])))%N
  /\ (downloadedBytes (run tr) = 5%N <-> chunkBytes (delivered tr) = 5%N).
Proof.
  intros tr.
  destruct (downloadedBytes_is_chunk_sum tr [Data ["f"]%byte]) as (E & M & F).
  split; [rewrite E; reflexivity | split; [exact M|]].
  apply F; vm_compute; reflexivity.
Defined.

End PercentFacts.

(** ** Life cycle shared by the revisions *)

(** What the success message, the write stream and the process state of a
    script do on one event; each revision is shown below to behave so. *)
Section Lifecycle.

Context {S : Type}.
Variables (console : S -> list Line) (fileStream : S -> Writable)
          (uncaught : S -> option JsError).
Variables (step : S -> Event -> S) (init : S).

Hypothesis init_console : console init = [].
Hypothesis init_open : fileStream init = Open.
Hypothesis init_alive : uncaught init = None.

Hypothesis step_done : forall st ev,
  In LogDone (console (step st ev)) ->
  In LogDone (console st)
  \/ (ev = Finish /\ fileStream st = Open /\ uncaught st = None).

Hypothesis step_fileStream : forall st ev,
  fileStream (step st ev) =
  match uncaught st, fileStream st, ev with
  | None, Open, Finish => Finished
  | None, Open, FileError _ => Errored
  | _, w, _ => w
  end.

Hypothesis step_uncaught : forall st ev,
  uncaught (step st ev) =
  match uncaught st, ev with
  | None, VideoError e => Some e
  | u, _ => u
  end.

Local Abbreviation run tr := (fold_left step tr init).

Lemma lifecycle_open_alive tr :
  fileStream (run tr) = Open -> uncaught (run tr) = None -> noError tr = true.
Proof.
  induction tr as [|ev tr IH] using rev_ind; [reflexivity|].
  rewrite fold_left_app. simpl.
  rewrite step_fileStream, step_uncaught. intros F U.
  unfold noError. rewrite forallb_app. simpl.
  destruct (uncaught (fold_left step tr init)) eqn:U0.
  - destruct ev; discriminate.
  - destruct (fileStream (fold_left step tr init)) eqn:F0;
      destruct ev; try discriminate; simpl;
      rewrite andb_true_r; now apply IH.
Qed.

Lemma lifecycle_finished tr :
  fileStream (run tr) = Finished ->
  exists pre post, tr = pre ++ Finish :: post /\ noError pre = true.
Proof.
  induction tr as [|ev tr IH] using rev_ind.
  - simpl. rewrite init_open. discriminate.
  - rewrite fold_left_app. simpl.
    rewrite step_fileStream. intros F.
    destruct (fileStream (fold_left step tr init)) eqn:F0.
    + destruct (uncaught (fold_left step tr init)) eqn:U0; [discriminate|].
      destruct ev; try discriminate.
      exists tr, []. split; [reflexivity|].
      apply lifecycle_open_alive; assumption.
    + destruct IH as (pre & post & -> & N); [reflexivity|].
      exists pre, (post ++ [ev]). split; [|exact N].
      now rewrite <- app_assoc.
    + destruct (uncaught (fold_left step tr init)); destruct ev; discriminate.
Qed.

Lemma lifecycle_done tr :
  In LogDone (console (run tr)) -> fileStream (run tr) = Finished.
Proof.
  induction tr as [|ev tr IH] using rev_ind.
  - simpl. rewrite init_console. intros [].
  - rewrite fold_left_app. simpl. intros D.
    rewrite step_fileStream.
    apply step_done in D as [D | (-> & F & U)].
    + rewrite (IH D).
      now destruct (uncaught (fold_left step tr init)).
    + now rewrite U, F.
Qed.

End Lifecycle.

Module BasicFacts.
Import Basic.

Lemma basic_step_done st ev :
  In LogDone (console (step st ev)) ->
  In LogDone (console st)
  \/ (ev = Finish /\ fileStream st = Open /\ uncaught st = None).
Proof.
  unfold step, pipeChunk. destruct (uncaught st) eqn:U; [now left|].
  destruct ev; simpl; auto;
    destruct (fileStream st) eqn:F; simpl; auto;
    rewrite in_app_iff; simpl; intuition; discriminate.
Qed.

Lemma basic_step_fileStream st ev :
  fileStream (step st ev) =
  match uncaught st, fileStream st, ev with
  | None, Open, Finish => Finished
  | None, Open, FileError _ => Errored
  | _, w, _ => w
  end.
Proof.
  unfold step, pipeChunk. destruct (uncaught st) eqn:U; [reflexivity|].
  destruct ev; simpl; destruct (fileStream st) eqn:F; simpl; auto.
Qed.

Lemma basic_step_uncaught st ev :
  uncaught (step st ev) =
  match uncaught st, ev with
  | None, VideoError e => Some e
  | u, _ => u
  end.
Proof.
  unfold step, pipeChunk. destruct (uncaught st) eqn:U; [now destruct ev|].
  destruct ev; simpl; auto; destruct (fileStream st); simpl; auto.
Qed.

End BasicFacts.

Module PercentLifecycle.
Import Percent.

Lemma percent_step_done st ev :
  In LogDone (console (step st ev)) ->
  In LogDone (console st)
  \/ (ev = Finish /\ fileStream st = Open /\ uncaught st = None).
Proof.
  unfold step. destruct (uncaught st) eqn:U; [now left|].
  destruct ev; simpl; auto;
    try (destruct (fileStream st) eqn:F; simpl; auto);
    rewrite in_app_iff; simpl; intuition; discriminate.
Qed.

Lemma percent_step_fileStream st ev :
  fileStream (step st ev) =
  match uncaught st, fileStream st, ev with
  | None, Open, Finish => Finished
  | None, Open, FileError _ => Errored
  | _, w, _ => w
  end.
Proof.
  unfold step. destruct (uncaught st) eqn:U; [reflexivity|].
  destruct ev; simpl; destruct (fileStream st) eqn:F; simpl; auto.
Qed.

Lemma percent_step_uncaught st ev :
  uncaught (step st ev) =
  match uncaught st, ev with
  | None, VideoError e => Some e
  | u, _ => u
  end.
Proof.
  unfold step. destruct (uncaught st) eqn:U; [now destruct ev|].
  destruct ev; simpl; auto; destruct (fileStream st); simpl; auto.
Qed.

End PercentLifecycle.

(** ** Completion and errors *)

(** C8: in the first and in the third revision the success message (the
    only report of a finished artifact) appears only once the write stream
    has emitted 'finish' with no 'error' event of either stream before it;
    the download is then in state [Completed]. *)
Theorem success_only_after_clean_finish (tr : list Event) :
  (In LogDone (Basic.console (Basic.run tr)) ->
     Basic.taskState (Basic.run tr) = Completed
     /\ exists pre post, tr = pre ++ Finish :: post /\ noError pre = true)
  /\ (In LogDone (Percent.console (Percent.run tr)) ->
        Percent.taskState (Percent.run tr) = Completed
        /\ exists pre post, tr = pre ++ Finish :: post /\ noError pre = true).
Proof.
  split; intros D.
  - assert (Basic.fileStream (Basic.run tr) = Finished) as F.
    { revert D. apply lifecycle_done with (uncaught := Basic.uncaught);
        auto using BasicFacts.basic_step_done, BasicFacts.basic_step_fileStream. }
    split; [unfold Basic.taskState; now rewrite F|].
    revert F. apply lifecycle_finished with (uncaught := Basic.uncaught);
      auto using BasicFacts.basic_step_fileStream, BasicFacts.basic_step_uncaught.
  - assert (Percent.fileStream (Percent.run tr) = Finished) as F.
    { revert D. apply lifecycle_done with (uncaught := Percent.uncaught);
        auto using PercentLifecycle.percent_step_done, PercentLifecycle.percent_step_fileStream. }
    split; [unfold Percent.taskState; now rewrite F|].
    revert F. apply lifecycle_finished with (uncaught := Percent.uncaught);
      auto using PercentLifecycle.percent_step_fileStream, PercentLifecycle.percent_step_uncaught.
Qed.

Lemma success_only_after_clean_finish_witness :
  let tr := [Data ["a"; "b"]%byte; Finish; FileError "late"] in
  In LogDone (Percent.console (Percent.run tr))
  /\ Percent.taskState (Percent.run tr) = Completed
  /\ exists pre post, tr = pre ++ Finish :: post /\ noError pre = true.
Proof.
  intros tr.
  assert (In LogDone (Percent.console (Percent.run tr))) as D
    by (vm_compute; right; now left).
  split; [exact D|].
  exact (proj2 (success_only_after_clean_finish tr) D).
Defined.

(** The listener of the write stream: a file error that arrives while the
    stream is open is printed with its cause and readline is closed. *)
Lemma file_error_is_reported st e :
  Percent.uncaught st = None -> Percent.fileStream st = Open ->
  Percent.console (Percent.step st (FileError e))
    = Percent.console st ++ [LogWriteError e]
  /\ Percent.rlClosed (Percent.step st (FileError e)) = true
  /\ Percent.fileStream (Percent.step st (FileError e)) = Errored.
Proof. intros U F. unfold Percent.step. rewrite U, F. now simpl. Qed.

(** C7 (the code at the failing input): an 'error' event of the ytdl stream
    reaches no listener in the first or in the third revision.  Nothing is
    printed, the write stream and readline are left as they were, and the
    error is left uncaught. *)
Theorem transport_error_has_no_listener (tr : list Event) (e : JsError) :
  (Basic.console (Basic.run (tr ++ [VideoError e])) = Basic.console (Basic.run tr)
   /\ Basic.fileStream (Basic.run (tr ++ [VideoError e]))
      = Basic.fileStream (Basic.run tr)
   /\ Basic.uncaught (Basic.run (tr ++ [VideoError e]))
      = match Basic.uncaught (Basic.run tr) with
        | None => Some e
        | Some e0 => Some e0
        end)
  /\ (Percent.console (Percent.run (tr ++ [VideoError e]))
      = Percent.console (Percent.run tr)
      /\ Percent.fileStream (Percent.run (tr ++ [VideoError e]))
         = Percent.fileStream (Percent.run tr)
      /\ Percent.rlClosed (Percent.run (tr ++ [VideoError e]))
         = Percent.rlClosed (Percent.run tr)
      /\ Percent.uncaught (Percent.run (tr ++ [VideoError e]))
         = match Percent.uncaught (Percent.run tr) with
           | None => Some e
           | Some e0 => Some e0
           end).
Proof.
  split.
  - unfold Basic.run. rewrite fold_left_app. simpl.
    set (st := fold_left Basic.step tr Basic.init). unfold Basic.step.
    destruct (Basic.uncaught st) eqn:U; simpl; auto.
  - rewrite PercentFacts.run_snoc.
    set (st := Percent.run tr). unfold Percent.step.
    destruct (Percent.uncaught st) eqn:U; simpl; auto.
Qed.

(** A transport error after three of five bytes in the third revision: the
    last thing printed is the progress line, readline is still open and the
    error is uncaught. *)
Example transport_error_trace :
  let st := Percent.run [Response {["content-length" := "5"]};
                         Data ["a"; "b"; "c"]%byte;
                         VideoError "ECONNRESET"] in
  Percent.console st = [WriteProgress (PRatio false 300 5)]
  /\ Percent.rlClosed st = false
  /\ Percent.fileStream st = Open
  /\ Percent.uncaught st = Some "ECONNRESET".
Proof. vm_compute. repeat split. Qed.

(** The same failure of the write stream instead is printed. *)
Example file_error_trace :
  let st := Percent.run [Response {["content-length" := "5"]};
                         Data ["a"; "b"; "c"]%byte;
                         FileError "ENOSPC"] in
  Percent.console st
    = [WriteProgress (PRatio false 300 5); LogWriteError "ENOSPC"]
  /\ Percent.rlClosed st = true
  /\ Percent.fileStream st = Errored
  /\ Percent.uncaught st = None.
Proof. vm_compute. repeat split. Qed.

Module ProgressReports.
Import Percent.

(** C6 (the code at the failing input): when the declared size is absent
    or does not parse, the 'data' listener still divides by it and writes
    the outcome, [NaN], as a percentage. *)
Theorem unknown_total_written_as_percentage
    (tr : list Event) (headers : gmap string string) (chunk : list Byte.byte) :
  parseInt (headers !! "content-length") = NaN ->
  uncaught (run tr) = None ->
  console (run (tr ++ [Response headers; Data chunk]))
  = console (run tr) ++ [WriteProgress PNaN].
Proof.
  intros P U. rewrite PercentFacts.run_app. simpl.
  unfold step at 2. rewrite U. unfold step. simpl. rewrite U. simpl.
  now rewrite P.
Qed.

Lemma unknown_total_written_as_percentage_witness :
  parseInt ((∅ : gmap string string) !! "content-length") = NaN
  /\ console (run [Response ∅; Data ["a"; "b"; "c"]%byte])
     = [WriteProgress PNaN].
Proof.
  split; [reflexivity|].
  apply (unknown_total_written_as_percentage [] ∅ ["a"; "b"; "c"]%byte);
    reflexivity.
Defined.

End ProgressReports.

(** ** The destination path *)

Lemma length_append (s t : string) :
  String.length (s +:+ t) = String.length s + String.length t.
Proof. induction s as [|c s IH]; simpl; [reflexivity | now rewrite IH]. Qed.

Lemma append_cancel_r (s t u : string) : s +:+ u = t +:+ u -> s = t.
Proof.
  revert t; induction s as [|c s IH]; intros [|d t] E.
  - reflexivity.
  - apply (f_equal String.length) in E.
    change (String.length u = S (String.length (t +:+ u))) in E.
    rewrite length_append in E. lia.
  - apply (f_equal String.length) in E.
    change (S (String.length (s +:+ u)) = String.length u) in E.
    rewrite length_append in E. lia.
  - change (String c (s +:+ u) = String d (t +:+ u)) in E.
    injection E as -> E. f_equal. now apply IH.
Qed.

Lemma hasIllegalChar_append (s t : string) :
  hasIllegalChar s = true -> hasIllegalChar (s +:+ t) = true.
Proof.
  unfold hasIllegalChar. induction s as [|c s IH]; simpl; [discriminate|].
  intros H. apply orb_true_iff in H as [H|H].
  - now rewrite H.
  - rewrite (IH H). apply orb_true_r.
Qed.

(** C9, as the claim states it, fails: no transform that strips the
    forbidden characters stands between the name typed by the user and the
    path.  For the name [a/b] the path is [a/b.mp4]. *)
Lemma sanitize_claim_counterexample :
  ~ (exists sanitize : string -> string,
       (forall name, hasIllegalChar (sanitize name) = false)
       /\ (exists cap, forall name, String.length (sanitize name) <= cap)
       /\ (forall name, sanitize (sanitize name) = sanitize name)
       /\ (forall name, outputFilePath name = sanitize name +:+ ".mp4")).
Proof.
  intros (sanitize & Strip & _ & _ & Use).
  specialize (Use "a/b"). unfold outputFilePath in Use.
  apply append_cancel_r in Use.
  specialize (Strip "a/b"). rewrite <- Use in Strip. discriminate Strip.
Qed.

(** C9 (amended): the output base name is used as typed.  The path is the
    name followed by [.mp4]: its length is that of the name plus four (no
    cap), a forbidden character of the name stays in the path, and two
    names give the same path only when they are equal. *)
Theorem outputFilePath_verbatim (fileName : string) :
  outputFilePath fileName = fileName +:+ ".mp4"
  /\ String.length (outputFilePath fileName) = String.length fileName + 4
  /\ (hasIllegalChar fileName = true ->
      hasIllegalChar (outputFilePath fileName) = true)
  /\ (forall other, outputFilePath other = outputFilePath fileName ->
        other = fileName).
Proof.
  repeat split.
  - unfold outputFilePath. now rewrite length_append.
  - apply hasIllegalChar_append.
  - intros other E. now apply append_cancel_r in E.
Qed.

Lemma outputFilePath_verbatim_witness :
  hasIllegalChar "a/b" = true
  /\ outputFilePath "a/b" = "a/b.mp4"
  /\ String.length (outputFilePath "a/b") = 7
  /\ hasIllegalChar (outputFilePath "a/b") = true.
Proof.
  destruct (outputFilePath_verbatim "a/b") as (E & L & I & _).
  split; [reflexivity|]. split; [exact E|]. split; [exact L|].
  apply I. reflexivity.
Defined.

(** ** The progress bar of the second revision *)

Module BarFacts.
Import Bar.

Lemma step_total st ev :
  total (progressBar (step st ev)) = total (progressBar st).
Proof.
  unfold step, pipeChunk. destruct (uncaught st); [reflexivity|].
  destruct ev; simpl; try reflexivity; now destruct (fileStream st).
Qed.

Lemma runFrom_total tr st :
  total (progressBar (runFrom st tr)) = total (progressBar st).
Proof.
  unfold runFrom. revert st; induction tr as [|ev tr IH]; intros st; simpl;
    [reflexivity|]. now rewrite IH, step_total.
Qed.

(** C10: the total of the progress bar is the size of the destination file
    as it is on disk before the write stream is created.  When that file
    does not exist, [statSync] throws: the script stops there, with the file
    system untouched and no listener or pipe set up.  When it exists, the
    total is the size of that old file and stays so whatever the stream
    reports afterwards. *)
Theorem bar_total_is_destination_size
    (files0 : gmap string N) (fileName : string) :
  (files0 !! outputFilePath fileName = None ->
     start files0 fileName = Threw (ENOENT (outputFilePath fileName)) files0)
  /\ (forall size, files0 !! outputFilePath fileName = Some size ->
        exists st, start files0 fileName = Started st
          /\ total (progressBar st) = size
          /\ curr (progressBar st) = 0%N
          /\ forall tr, total (progressBar (runFrom st tr)) = size).
Proof.
  unfold start, statSyncSize. split.
  - intros ->. reflexivity.
  - intros size ->. eexists. split; [reflexivity|]. simpl.
    split; [reflexivity|]. split; [reflexivity|].
    intros tr. now rewrite runFrom_total.
Qed.

Lemma bar_total_is_destination_size_witness :
  start ∅ "clip" = Threw (ENOENT "clip.mp4") ∅
  /\ exists st, start {["clip.mp4" := 7%N]} "clip" = Started st
       /\ total (progressBar st) = 7%N
       /\ curr (progressBar st) = 0%N
       /\ forall tr, total (progressBar (runFrom st tr)) = 7%N.
Proof.
  split.
  - apply (proj1 (bar_total_is_destination_size ∅ "clip")). reflexivity.
  - apply (proj2 (bar_total_is_destination_size {["clip.mp4" := 7%N]} "clip")).
    reflexivity.
Defined.

End BarFacts.

(** ** Further properties of the third revision *)

Module PercentRuns.
Import Percent.

Ltac step_cases st ev :=
  unfold step;
  destruct (uncaught st) eqn:?;
  destruct ev; simpl;
  try (destruct (fileStream st) eqn:?; simpl).

Lemma invariant_init : percentInvariant init.
Proof.
  unfold percentInvariant, init; simpl.
  repeat split; try lia; try discriminate; auto;
    try (intros []); try (intros [e []]); try (intros e []);
    try contradiction.
Qed.

Lemma invariant_step st ev : percentInvariant st -> percentInvariant (step st ev).
Proof.
  intros H.
  step_cases st ev; try exact H;
    destruct H as (R & W & O & T & D & E & X);
    unfold percentInvariant; simpl;
    rewrite ?List.filter_app, ?length_app; simpl;
    repeat match goal with
           | H : fileStream st = _ |- _ => rewrite H in *
           end.
  all: repeat split; try assumption; try lia; try discriminate.
  all: try (specialize (O eq_refl); lia).
  all: try (intros I; apply in_app_iff; left; tauto).
  all: try (intros I; apply in_app_iff in I; simpl in I;
            destruct I as [I|[I|[]]]; [tauto | discriminate I]).
  all: try (intros _; eexists; apply in_app_iff; simpl; right; left;
            reflexivity).
  all: try solve [setoid_rewrite in_app_iff; simpl; firstorder congruence].
Qed.

Lemma invariant_run tr : percentInvariant (run tr).
Proof.
  induction tr as [|ev tr IH] using rev_ind; [apply invariant_init|].
  rewrite PercentFacts.run_snoc. now apply invariant_step.
Qed.

(** X1: in the third revision readline is closed exactly when the write
    stream has finished or failed; as long as the stream is open (also after
    an uncaught 'error' of the ytdl stream) [rl.close()] has not run. *)
Theorem readline_closed_with_stream (tr : list Event) :
  rlClosed (run tr)
  = match fileStream (run tr) with Open => false | _ => true end.
Proof. exact (proj1 (invariant_run tr)). Qed.

Lemma fold_closed tr st :
  fileStream st <> Open -> written (fold_left step tr st) = written st.
Proof.
  revert st; induction tr as [|ev tr IH]; intros st C; simpl; [reflexivity|].
  assert (fileStream (step st ev) = fileStream st
          /\ written (step st ev) = written st) as [F W].
  { step_cases st ev; auto; congruence. }
  rewrite IH by congruence. exact W.
Qed.

Lemma fold_written tr st :
  uncaught st = None -> fileStream st = Open ->
  written (fold_left step tr st) = (written st + pipedBytes tr)%N.
Proof.
  revert st; induction tr as [|ev tr IH]; intros st U F; simpl; [lia|].
  destruct ev; simpl.
  - rewrite IH; unfold step; rewrite U; simpl; auto.
  - rewrite IH; unfold step; rewrite U; simpl; rewrite ?F; auto. lia.
  - rewrite IH; unfold step; rewrite U; simpl; auto.
  - rewrite (PercentFacts.fold_dead _ _ e);
      unfold step; rewrite U; simpl; [lia | reflexivity].
  - rewrite fold_closed; unfold step; rewrite U, F; simpl; [lia | discriminate].
  - rewrite fold_closed; unfold step; rewrite U, F; simpl; [lia | discriminate].
Qed.

(** X2: the bytes handed to the destination file are those of the chunks
    that arrive before the write stream closes or the ytdl stream fails;
    they never exceed the counter, and equal it while the stream is open. *)
Theorem written_is_piped (tr : list Event) :
  written (run tr) = pipedBytes tr
  /\ (written (run tr) <= downloadedBytes (run tr))%N
  /\ match fileStream (run tr) with
     | Open => written (run tr) = downloadedBytes (run tr)
     | _ => True
     end.
Proof.
  destruct (invariant_run tr) as (_ & W & O & _).
  split; [|split; [exact W|]].
  - unfold run. rewrite fold_written by reflexivity. simpl. lia.
  - destruct (fileStream (run tr)); auto.
Qed.

(** X3: the third revision prints at most one closing line: none while the
    write stream is open, exactly one afterwards, which is the success
    message when the stream finished and the write-error message when it
    failed; the two never appear together and the download-error message of
    the other revisions never appears. *)
Theorem one_closing_line (tr : list Event) :
  length (List.filter isTerminalLine (console (run tr)))
  = match fileStream (run tr) with Open => 0 | _ => 1 end
  /\ (In LogDone (console (run tr)) <-> fileStream (run tr) = Finished)
  /\ ((exists e, In (LogWriteError e) (console (run tr)))
      <-> fileStream (run tr) = Errored)
  /\ (forall e, ~ In (LogDownloadError e) (console (run tr))).
Proof.
  destruct (invariant_run tr) as (_ & _ & _ & T & D & E & X).
  repeat split; try assumption; try apply D; try apply E.
Qed.

Lemma step_totalBytes st ev :
  totalBytes (step st ev) =
  match uncaught st, ev with
  | None, Response headers => parseInt (headers !! "content-length")
  | _, _ => totalBytes st
  end.
Proof. step_cases st ev; reflexivity. Qed.

Lemma fold_totalBytes tr st :
  existsb isResponse tr = false ->
  totalBytes (fold_left step tr st) = totalBytes st.
Proof.
  revert st; induction tr as [|ev tr IH]; intros st N; simpl in *;
    [reflexivity|].
  apply orb_false_iff in N as [N1 N2].
  rewrite IH by assumption. rewrite step_totalBytes.
  destruct (uncaught st), ev; try reflexivity; discriminate.
Qed.

(** X4: the total is the one of the last 'response' event: once a response
    has been handled, events other than responses leave [totalBytes] at the
    value parsed from its content-length header. *)
Theorem totalBytes_from_last_response
    (tr : list Event) (headers : gmap string string) (tr' : list Event) :
  uncaught (run tr) = None ->
  existsb isResponse tr' = false ->
  totalBytes (run (tr ++ Response headers :: tr'))
  = parseInt (headers !! "content-length").
Proof.
  intros U N. rewrite PercentFacts.run_app. simpl.
  rewrite fold_totalBytes by assumption.
  rewrite step_totalBytes. now rewrite U.
Qed.

Lemma totalBytes_from_last_response_witness :
  totalBytes (run ([Response {["content-length" := "5"]}; Data ["a"]%byte]
                   ++ Response {["content-length" := "12"]}
                      :: [Data ["b"]%byte; Finish]))
  = Int false 12.
Proof.
  rewrite (totalBytes_from_last_response
             [Response {["content-length" := "5"]}; Data ["a"]%byte]
             {["content-length" := "12"]} [Data ["b"]%byte; Finish]);
    reflexivity.
Defined.

(** X5: until a 'response' event arrives the total is the initial 0, so
    every progress line written is [NaN] (nothing received yet) or
    [Infinity]. *)
Theorem progress_without_response (tr : list Event) (p : Percent) :
  existsb isResponse tr = false ->
  In (WriteProgress p) (console (run tr)) ->
  p = PNaN \/ p = PInfinity false.
Proof.
  induction tr as [|ev tr IH] using rev_ind; [intros _ []|].
  rewrite existsb_app. intros N. apply orb_false_iff in N as [N1 N2].
  rewrite PercentFacts.run_snoc.
  pose proof (fold_totalBytes tr init N1) as T. fold (run tr) in T.
  simpl in T. intros I.
  assert (In (WriteProgress p) (console (run tr))
          \/ exists d, p = percentOf d (Int false 0)) as [J|[d ->]].
  { revert I. step_cases (run tr) ev; auto;
      rewrite in_app_iff; simpl; intros [I|[I|[]]]; auto; try discriminate.
    all: right; injection I as <-; rewrite T; eauto. }
  - now apply IH.
  - simpl. destruct (d =? 0)%N; auto.
Qed.

Lemma progress_without_response_witness :
  In (WriteProgress (PInfinity false))
     (console (run [Data ["a"; "b"]%byte; Finish]))
  /\ (PInfinity false = PNaN \/ PInfinity false = PInfinity false).
Proof.
  assert (In (WriteProgress (PInfinity false))
             (console (run [Data ["a"; "b"]%byte; Finish]))) as I
    by (vm_compute; now left).
  split; [exact I|].
  exact (progress_without_response [Data ["a"; "b"]%byte; Finish]
           (PInfinity false) eq_refl I).
Defined.

Lemma fold_data_console chunks st :
  uncaught st = None ->
  console (fold_left step (map Data chunks) st)
  = console st
    ++ map (fun d => WriteProgress (percentOf d (totalBytes st)))
           (prefixSums (downloadedBytes st) (map chunkLength chunks)).
Proof.
  revert st; induction chunks as [|c chunks IH]; intros st U; simpl.
  - now rewrite app_nil_r.
  - rewrite IH; unfold step; rewrite U; simpl; [|exact U].
    now rewrite <- app_assoc.
Qed.

(** X6: for a download made of one response followed by chunks, the lines
    written are, in order, the percentages of the running totals of the
    chunk sizes against the total parsed from that response: one line per
    chunk, the k-th for the first k chunks together. *)
Theorem progress_lines_are_running_totals
    (headers : gmap string string) (chunks : list (list Byte.byte)) :
  console (run (Response headers :: map Data chunks))
  = map (fun d => WriteProgress
                    (percentOf d (parseInt (headers !! "content-length"))))
        (prefixSums 0 (map chunkLength chunks)).
Proof.
  unfold run. simpl. now rewrite fold_data_console.
Qed.

Lemma step_progress_lines st ev :
  length (List.filter isProgressLine (console (step st ev)))
  = length (List.filter isProgressLine (console st))
    + match uncaught st, ev with
      | None, Data _ => 1
      | _, _ => 0
      end.
Proof.
  step_cases st ev; rewrite ?List.filter_app, ?length_app; simpl; lia.
Qed.

Lemma fold_progress_lines tr st :
  uncaught st = None ->
  length (List.filter isProgressLine (console (fold_left step tr st)))
  = length (List.filter isProgressLine (console st))
    + length (List.filter isData (delivered tr)).
Proof.
  revert st; induction tr as [|ev tr IH]; intros st U; simpl; [lia|].
  pose proof (PercentFacts.step_alive st ev U) as A.
  pose proof (step_progress_lines st ev) as P. rewrite U in P.
  destruct ev; simpl; try (rewrite (IH _ A), P; lia).
  rewrite (PercentFacts.fold_dead _ _ _ A), P. lia.
Qed.

(** X7: one progress line is written per chunk that reaches the 'data'
    listener, empty chunks and chunks that arrive after the write stream
    has closed included; chunks after an uncaught error produce none. *)
Theorem one_progress_line_per_chunk (tr : list Event) :
  length (List.filter isProgressLine (console (run tr)))
  = length (List.filter isData (delivered tr)).
Proof.
  unfold run. now rewrite fold_progress_lines.
Qed.

End PercentRuns.

(** ** Reading a declared size *)





(** ** After an error *)

Section AfterError.

Context {S : Type}.
Variables (console : S -> list Line) (fileStream : S -> Writable)
          (uncaught : S -> option JsError).
Variable step : S -> Event -> S.

Hypothesis step_done : forall st ev,
  In LogDone (console (step st ev)) ->
  In LogDone (console st)
  \/ (ev = Finish /\ fileStream st = Open /\ uncaught st = None).

Hypothesis step_fileStream : forall st ev,
  fileStream (step st ev) =
  match uncaught st, fileStream st, ev with
  | None, Open, Finish => Finished
  | None, Open, FileError _ => Errored
  | _, w, _ => w
  end.

Hypothesis step_uncaught : forall st ev,
  uncaught (step st ev) =
  match uncaught st, ev with
  | None, VideoError e => Some e
  | u, _ => u
  end.

Lemma closed_stays_silent tr st :
  ~ (fileStream st = Open /\ uncaught st = None) ->
  ~ In LogDone (console st) ->
  ~ In LogDone (console (fold_left step tr st)).
Proof.
  revert st; induction tr as [|ev tr IH]; intros st C N; simpl; [exact N|].
  apply IH.
  - rewrite step_fileStream, step_uncaught. intros [F U]. apply C.
    destruct (uncaught st); [destruct ev; discriminate|].
    destruct (fileStream st); destruct ev; try discriminate; auto.
  - intros D. apply step_done in D as [D|(_ & F & U)]; [now apply N|].
    apply C. now split.
Qed.

Lemma error_then_silent st ev tr :
  isErrorEvent ev = true ->
  uncaught st = None -> fileStream st = Open ->
  ~ In LogDone (console st) ->
  ~ In LogDone (console (fold_left step (ev :: tr) st)).
Proof.
  intros E U F N. simpl. apply closed_stays_silent.
  - rewrite step_fileStream, step_uncaught, U, F.
    intros [F' U']. destruct ev; discriminate.
  - intros D. apply step_done in D as [D|(-> & _)]; [now apply N|].
    discriminate E.
Qed.

End AfterError.

(** X9: in the first and in the third revision, once an 'error' event of
    either stream has arrived during a transfer (write stream open, process
    alive) the success message is never printed, whatever events follow. *)
Theorem no_success_after_error (tr : list Event) (ev : Event) (tr' : list Event) :
  isErrorEvent ev = true ->
  (Basic.uncaught (Basic.run tr) = None ->
   Basic.fileStream (Basic.run tr) = Open ->
   ~ In LogDone (Basic.console (Basic.run (tr ++ ev :: tr'))))
  /\ (Percent.uncaught (Percent.run tr) = None ->
      Percent.fileStream (Percent.run tr) = Open ->
      ~ In LogDone (Percent.console (Percent.run (tr ++ ev :: tr')))).
Proof.
  intros E. split; intros U F.
  - unfold Basic.run. rewrite fold_left_app.
    apply error_then_silent with (fileStream := Basic.fileStream)
                                 (uncaught := Basic.uncaught);
      auto using BasicFacts.basic_step_done, BasicFacts.basic_step_fileStream,
                 BasicFacts.basic_step_uncaught.
    intros D.
    apply (lifecycle_done Basic.console Basic.fileStream Basic.uncaught
             Basic.step Basic.init) in D;
      auto using BasicFacts.basic_step_done, BasicFacts.basic_step_fileStream.
    unfold Basic.run in F. congruence.
  - unfold Percent.run. rewrite fold_left_app.
    apply error_then_silent with (fileStream := Percent.fileStream)
                                 (uncaught := Percent.uncaught);
      auto using PercentLifecycle.percent_step_done,
                 PercentLifecycle.percent_step_fileStream,
                 PercentLifecycle.percent_step_uncaught.
    intros D.
    apply (lifecycle_done Percent.console Percent.fileStream Percent.uncaught
             Percent.step Percent.init) in D;
      auto using PercentLifecycle.percent_step_done,
                 PercentLifecycle.percent_step_fileStream.
    unfold Percent.run in F. congruence.
Qed.

Lemma no_success_after_error_witness :
  ~ In LogDone
      (Percent.console
         (Percent.run ([Data ["a"]%byte]
                       ++ FileError "ENOSPC" :: [Data ["b"]%byte; Finish]))).
Proof.
  apply (proj2 (no_success_after_error [Data ["a"]%byte] (FileError "ENOSPC")
                  [Data ["b"]%byte; Finish] eq_refl));
    reflexivity.
Defined.

(** ** The first revision, and how the third relates to it *)

Lemma basic_run_snoc tr ev : Basic.run (tr ++ [ev]) = Basic.step (Basic.run tr) ev.
Proof. unfold Basic.run. now rewrite fold_left_app. Qed.

(** X10: the first revision prints at most one line in a whole run: nothing
    while the write stream is open, the success message alone once it has
    finished, and one error message alone, carrying the cause of a file
    error that occurred, once it has failed. *)
Theorem basic_console_shape (tr : list Event) :
  match Basic.fileStream (Basic.run tr) with
  | Open => Basic.console (Basic.run tr) = []
  | Finished => Basic.console (Basic.run tr) = [LogDone]
  | Errored =>
      exists e, Basic.console (Basic.run tr) = [LogDownloadError e]
                /\ In (FileError e) tr
  end.
Proof.
  induction tr as [|ev tr IH] using rev_ind; [reflexivity|].
  rewrite basic_run_snoc. set (st := Basic.run tr) in *.
  unfold Basic.step, Basic.pipeChunk.
  destruct (Basic.uncaught st) eqn:U.
  - destruct (Basic.fileStream st); auto.
    destruct IH as (e & C & I). exists e. split; [exact C|].
    apply in_app_iff. now left.
  - destruct ev; simpl; destruct (Basic.fileStream st) eqn:F; simpl;
      rewrite ?F; auto;
      try (destruct IH as (e0 & C & I); exists e0; split; [exact C|];
           apply in_app_iff; now left);
      try (rewrite IH; reflexivity).
    exists e. rewrite IH. split; [reflexivity|].
    apply in_app_iff. right. now left.
Qed.

(** X11: on the same events the third revision treats the streams as the
    first does: the write stream is in the same state, the same error (if
    any) is uncaught, the same number of bytes has been handed to the file,
    and what the first prints is what the third prints with the progress
    lines left out. *)
Theorem third_revision_refines_first (tr : list Event) :
  Basic.fileStream (Basic.run tr) = Percent.fileStream (Percent.run tr)
  /\ Basic.uncaught (Basic.run tr) = Percent.uncaught (Percent.run tr)
  /\ Basic.written (Basic.run tr) = Percent.written (Percent.run tr)
  /\ Basic.console (Basic.run tr)
     = flat_map asBasicLine (Percent.console (Percent.run tr)).
Proof.
  induction tr as [|ev tr IH] using rev_ind; [repeat split|].
  rewrite basic_run_snoc, PercentFacts.run_snoc.
  set (sb := Basic.run tr) in *. set (sp := Percent.run tr) in *.
  destruct IH as (F & U & W & C).
  unfold Basic.step, Basic.pipeChunk, Percent.step. rewrite U, F.
  destruct (Percent.uncaught sp) eqn:Up; [repeat split; congruence|].
  destruct ev; simpl; try (repeat split; congruence);
    destruct (Percent.fileStream sp) eqn:Fp; simpl;
    rewrite ?flat_map_app; simpl; rewrite ?app_nil_r;
    repeat split; congruence.
Qed.

(** ** Further properties of the second revision *)

Module BarRuns.
Import Bar.

Ltac step_cases st ev :=
  unfold step, pipeChunk;
  destruct (uncaught st) eqn:?;
  destruct ev; simpl;
  try (destruct (fileStream st) eqn:?; simpl).

Lemma bar_step_done st ev :
  In LogDone (console (step st ev)) ->
  In LogDone (console st)
  \/ (ev = Finish /\ fileStream st = Open /\ uncaught st = None).
Proof.
  step_cases st ev; auto; rewrite in_app_iff; simpl; intuition; discriminate.
Qed.

Lemma bar_step_fileStream st ev :
  fileStream (step st ev) =
  match uncaught st, fileStream st, ev with
  | None, Open, Finish => Finished
  | None, Open, FileError _ => Errored
  | _, w, _ => w
  end.
Proof. step_cases st ev; auto; destruct (fileStream st); auto. Qed.

Lemma bar_step_uncaught st ev :
  uncaught (step st ev) =
  match uncaught st, ev with
  | None, VideoError e => Some e
  | u, _ => u
  end.
Proof. step_cases st ev; auto. Qed.

Lemma bar_step_path st ev : path (step st ev) = path st.
Proof. step_cases st ev; auto. Qed.

Lemma bar_fold_path tr st : path (fold_left step tr st) = path st.
Proof.
  revert st; induction tr as [|ev tr IH]; intros st; simpl; [reflexivity|].
  now rewrite IH, bar_step_path.
Qed.

Lemma bar_fold_dead tr st e : uncaught st = Some e -> fold_left step tr st = st.
Proof.
  revert st; induction tr as [|ev tr IH]; intros st H; simpl; [reflexivity|].
  assert (step st ev = st) as -> by (unfold step; now rewrite H).
  now apply IH.
Qed.

Lemma bar_step_files_other st ev (p : string) :
  p <> path st -> files (step st ev) !! p = files st !! p.
Proof.
  intros NE. step_cases st ev; auto. now rewrite lookup_alter_ne.
Qed.

Lemma bar_fold_files_other tr st (p : string) :
  p <> path st -> files (fold_left step tr st) !! p = files st !! p.
Proof.
  revert st; induction tr as [|ev tr IH]; intros st NE; simpl; [reflexivity|].
  rewrite IH by now rewrite bar_step_path. now apply bar_step_files_other.
Qed.



Lemma start_inv files0 fileName st :
  start files0 fileName = Started st ->
  exists size,
    files0 !! outputFilePath fileName = Some size
    /\ st = {| progressBar := {| total := size; curr := 0 |};
               files := createWriteStream files0 (outputFilePath fileName);
               path := outputFilePath fileName;
               console := []; fileStream := Open; rlClosed := true;
               uncaught := None |}.
Proof.
  unfold start, statSyncSize.
  destruct (files0 !! outputFilePath fileName) as [size|]; [|discriminate].
  intros [= <-]. now exists size.
Qed.



(** X13: the second revision touches no file but its destination: every
    other path has, after any events, what it had before the script
    started. *)
Theorem other_files_untouched
    (files0 : gmap string N) (fileName : string) (st : state)
    (tr : list Event) (p : string) :
  start files0 fileName = Started st ->
  p <> outputFilePath fileName ->
  files (runFrom st tr) !! p = files0 !! p.
Proof.
  intros H NE. apply start_inv in H as (size & _ & ->). unfold runFrom.
  rewrite bar_fold_files_other by (simpl; exact NE).
  simpl. unfold createWriteStream. now rewrite lookup_insert_ne.
Qed.

Lemma other_files_untouched_witness :
  exists st,
    start {["clip.mp4" := 7%N; "notes.txt" := 42%N]} "clip" = Started st
    /\ files (runFrom st [Data ["a"]%byte; FileError "ENOSPC"]) !! "notes.txt"
       = Some 42%N.
Proof.
  eexists. split; [reflexivity|].
  assert ("notes.txt" <> outputFilePath "clip") as NE by discriminate.
  exact (other_files_untouched
           {["clip.mp4" := 7%N; "notes.txt" := 42%N]} "clip" _
           [Data ["a"]%byte; FileError "ENOSPC"] "notes.txt" eq_refl NE).
Defined.

Lemma bar_fold_curr tr st :
  uncaught st = None ->
  curr (progressBar (fold_left step tr st))
  = (curr (progressBar st) + tickedBytes tr)%N.
Proof.
  revert st; induction tr as [|ev tr IH]; intros st U; simpl; [lia|].
  destruct ev; simpl;
    try (rewrite IH; unfold step, pipeChunk; rewrite U; simpl;
         try (destruct (fileStream st); simpl); auto; lia).
  rewrite (bar_fold_dead _ _ e); unfold step; rewrite U; simpl;
    [lia | reflexivity].
Qed.

(** X14: the progress bar has advanced by the sum of the chunk lengths of
    the 'progress' events received, and by nothing else: the [downloaded]
    and [total] arguments of the event and the size of the bar's own total
    play no part, so the bar can pass its total. *)
Theorem bar_counts_progress_events
    (files0 : gmap string N) (fileName : string) (st : state)
    (tr : list Event) :
  start files0 fileName = Started st ->
  curr (progressBar (runFrom st tr)) = tickedBytes tr.
Proof.
  intros H. apply start_inv in H as (size & _ & ->). unfold runFrom.
  rewrite bar_fold_curr by reflexivity. simpl. lia.
Qed.

Lemma bar_counts_progress_events_witness :
  exists st,
    start {["clip.mp4" := 2%N]} "clip" = Started st
    /\ total (progressBar (runFrom st [Progress 3 3 10; Progress 4 7 10])) = 2%N
    /\ curr (progressBar (runFrom st [Progress 3 3 10; Progress 4 7 10])) = 7%N.
Proof.
  eexists. split; [reflexivity|]. split; [reflexivity|].
  exact (bar_counts_progress_events {["clip.mp4" := 2%N]} "clip" _
           [Progress 3 3 10; Progress 4 7 10] eq_refl).
Defined.

(** X15: in the second revision too the success message is printed only
    after the write stream has emitted 'finish' with no 'error' event of
    either stream before it. *)
Theorem bar_success_only_after_clean_finish
    (files0 : gmap string N) (fileName : string) (st : state)
    (tr : list Event) :
  start files0 fileName = Started st ->
  In LogDone (console (runFrom st tr)) ->
  fileStream (runFrom st tr) = Finished
  /\ exists pre post, tr = pre ++ Finish :: post /\ noError pre = true.
Proof.
  intros H D. apply start_inv in H as (size & _ & ->). unfold runFrom in *.
  match goal with
  | |- fileStream (fold_left step tr ?s) = _ /\ _ =>
      assert (fileStream (fold_left step tr s) = Finished) as F
  end.
  { revert D. apply lifecycle_done with (uncaught := uncaught);
      auto using bar_step_done, bar_step_fileStream. }
  split; [exact F|].
  revert F. apply lifecycle_finished with (uncaught := uncaught);
    auto using bar_step_fileStream, bar_step_uncaught.
Qed.

Lemma bar_success_only_after_clean_finish_witness :
  exists st,
    start {["clip.mp4" := 2%N]} "clip" = Started st
    /\ fileStream (runFrom st [Data ["a"]%byte; Finish]) = Finished
    /\ exists pre post,
         [Data ["a"]%byte; Finish] = pre ++ Finish :: post
         /\ noError pre = true.
Proof.
  eexists. split; [reflexivity|].
  match goal with
  | |- fileStream (runFrom ?s _) = _ /\ _ =>
      apply (bar_success_only_after_clean_finish
               {["clip.mp4" := 2%N]} "clip" s [Data ["a"]%byte; Finish])
  end.
  - reflexivity.
  - vm_compute. now left.
Defined.

End BarRuns.

(** ** The extension of the destination path *)

Lemma substring_after_prefix (s t : string) (n : nat) :
  String.substring (String.length s) n (s +:+ t) = String.substring 0 n t.
Proof. induction s as [|c s IH]; simpl; [reflexivity | exact IH]. Qed.

Lemma append_assoc_mp4 (s t u : string) : (s +:+ t) +:+ u = s +:+ (t +:+ u).
Proof.
  induction s as [|c s IH]; [reflexivity|].
  change (String c ((s +:+ t) +:+ u) = String c (s +:+ (t +:+ u))).
  now f_equal.
Qed.

(** X16: the extension is appended unconditionally: the path always ends in
    [.mp4] right after the name as typed, is never the name itself, and a
    name that already carries the extension gets it a second time. *)
Theorem extension_always_appended (fileName : string) :
  String.substring (String.length fileName) 4 (outputFilePath fileName) = ".mp4"
  /\ outputFilePath fileName <> fileName
  /\ outputFilePath (outputFilePath fileName) = fileName +:+ ".mp4.mp4".
Proof.
  unfold outputFilePath. split; [|split].
  - now rewrite substring_after_prefix.
  - intros E. apply (f_equal String.length) in E.
    rewrite length_append in E. simpl in E. lia.
  - now rewrite append_assoc_mp4.
Qed.
